(** * AutoFoundr: the mock generation backend and its proxy route

    A shallow embedding of the two executable parts of the scaffold:
    - [backend/main.py]: the FastAPI route [generate] and its mock helpers
      ([mock_brand_name], [mock_logo_url], [mock_title], [mock_description],
      [mock_price], [mock_ads]);
    - [frontend/pages/api/generate.js]: the Next.js route [handler] that
      relays a request to the backend.

    Python strings are sequences of Unicode code points, so a string is a
    list of code points here; the draw from [random] is an explicit state;
    a Python exception is an error result. *)

From Stdlib Require Import String Ascii DecimalString.
From Stdlib Require Import List ZArith NArith Bool Lia.
Import ListNotations.

Local Open Scope list_scope.

(** ** Python strings *)

Module Py.

Definition codepoint := N.
Definition str := list codepoint.

(** A string literal of the source whose characters are all ASCII. *)
Definition lit (s : string) : str :=
  map N_of_ascii (list_ascii_of_string s).

(** U+2014 EM DASH, which the title and the first ad contain. *)
Definition em_dash : codepoint := 8212%N.

Definition str_eqb (a b : str) : bool :=
  if list_eq_dec N.eq_dec a b then true else false.

(** The characters [str.split()] treats as separators: CPython's
    [_PyUnicode_IsWhitespace]. *)
Definition isspace (c : codepoint) : bool :=
  ((9 <=? c) && (c <=? 13) || (28 <=? c) && (c <=? 32)
   || (c =? 133) || (c =? 160) || (c =? 5760)
   || (8192 <=? c) && (c <=? 8202)
   || (c =? 8232) || (c =? 8233) || (c =? 8239) || (c =? 8287)
   || (c =? 12288))%N.

(** The token being read is kept reversed in [tok]; it is emitted when a
    separator or the end of the string is met. *)
Definition flush (tok : str) : list str :=
  match tok with
  | [] => []
  | _ => [rev tok]
  end.

Fixpoint split_from (tok : str) (s : str) : list str :=
  match s with
  | [] => flush tok
  | c :: s' =>
      if isspace c then flush tok ++ split_from [] s'
      else split_from (c :: tok) s'
  end.

(** [s.split()] with no argument: runs of whitespace separate the tokens,
    leading and trailing whitespace yields no empty token. *)
Definition split (s : str) : list str := split_from [] s.

Definition is_prefix (p s : str) : bool :=
  str_eqb (firstn (length p) s) p.

(** The scan of [s.replace(old, new)] for a non-empty [old]: [skip] counts
    the characters of a match that are still to be passed over. *)
Fixpoint replace_scan (old new : str) (skip : nat) (s : str) : str :=
  match s with
  | [] => []
  | c :: s' =>
      match skip with
      | S k => replace_scan old new k s'
      | O =>
          if is_prefix old s then new ++ replace_scan old new (length old - 1) s'
          else c :: replace_scan old new 0 s'
      end
  end.

(** [s.replace(old, new)]: every non-overlapping occurrence, left to right;
    an empty [old] matches before every character and at the end. *)
Definition replace (old new : str) (s : str) : str :=
  match old with
  | [] => new ++ flat_map (fun c => c :: new) s
  | _ => replace_scan old new 0 s
  end.

(** [s[:n]] for a non-negative [n]. *)
Definition slice_to (n : nat) (s : str) : str := firstn n s.

(** The case mappings of the Unicode database, which [str.capitalize] reads.
    [title_full c] is the full title-case mapping of [c]; [lower_at s i] is
    the full lower-case mapping of the character at index [i] of [s], which
    may depend on its neighbours (final sigma). *)
Class CaseTables := {
  title_full : codepoint -> str;
  lower_at : str -> nat -> str
}.

(** [s.capitalize()]: the empty string is returned as it is; otherwise the
    first character is title-cased and every other one lower-cased. *)
Definition capitalize `{CaseTables} (s : str) : str :=
  match s with
  | [] => []
  | c :: rest => title_full c ++ flat_map (lower_at s) (seq 1 (length rest))
  end.

(** The tables restricted to ASCII letters; every other character is left
    as it is. They agree with Unicode on strings of ASCII characters. *)
Definition ascii_title (c : codepoint) : codepoint :=
  if ((97 <=? c) && (c <=? 122))%N then (c - 32)%N else c.

Definition ascii_lower (c : codepoint) : codepoint :=
  if ((65 <=? c) && (c <=? 90))%N then (c + 32)%N else c.

Definition AsciiTables : CaseTables := {|
  title_full c := [ascii_title c];
  lower_at s i := match nth_error s i with
                  | Some c => [ascii_lower c]
                  | None => []
                  end
|}.

End Py.

Import Py.

(** ** Exceptions, the random source and the effect monad *)

Inductive exn : Type :=
| IndexError.

Inductive outcome (A : Type) : Type :=
| Ok (a : A)
| Raise (e : exn).

Arguments Ok {A} a.
Arguments Raise {A} e.

(** The state of [random]: the sequence of raw draws and how many of them
    have been used. *)
Record Random : Type := mkRandom {
  draws : nat -> nat;
  cursor : nat
}.

Definition advance (g : Random) : Random :=
  {| draws := draws g; cursor := S (cursor g) |}.

Definition next_draw (g : Random) : nat := draws g (cursor g).

(** A computation that may draw from the random source and may raise. *)
Definition Eff (A : Type) : Type := Random -> outcome A * Random.

Definition ret {A} (a : A) : Eff A := fun g => (Ok a, g).

Definition raise {A} (e : exn) : Eff A := fun g => (Raise e, g).

Definition bind {A B} (m : Eff A) (k : A -> Eff B) : Eff B :=
  fun g =>
    match m g with
    | (Ok a, g') => k a g'
    | (Raise e, g') => (Raise e, g')
    end.

Declare Scope eff_scope.
Delimit Scope eff_scope with eff.
Notation "x <- m ;; k" := (bind m (fun x => k))
  (at level 61, m at next level, right associativity) : eff_scope.
Local Open Scope eff_scope.

(** [random._randbelow(n)] for [n > 0]: some integer in [range(n)]. *)
Definition randbelow (n : nat) : Eff nat :=
  fun g => (Ok (next_draw g mod n), advance g).

(** [seq[i]] for a non-negative [i]. *)
Definition index {A} (seq : list A) (i : nat) : Eff A :=
  match nth_error seq i with
  | Some a => ret a
  | None => raise IndexError
  end.

(** [random.choice(seq)]: IndexError on an empty sequence, otherwise
    [seq[randbelow(len(seq))]]. *)
Definition choice {A} (seq : list A) : Eff A :=
  match seq with
  | [] => raise IndexError
  | _ => i <- randbelow (length seq) ;; index seq i
  end.

(** ** backend/main.py: the mock helpers *)

Section Backend.

Context `{CaseTables}.

Definition parts : list str :=
  [lit "Co"; lit "Lab"; lit "Works"; lit "Craft";
   lit "Studio"; lit "Goods"; lit "Peak"; lit "Root"].

Definition mock_brand_name (base : str) : Eff str :=
  first <- index (split base) 0 ;;
  suffix <- choice parts ;;
  ret (slice_to 30 (capitalize first ++ suffix)).

Definition logo_prefix : str :=
  lit "https://via.placeholder.com/256x256.png?text=".

Definition mock_logo_url (base : str) : str :=
  let text := replace (lit " ") (lit "+") base in
  logo_prefix ++ text.

Definition mock_title (base : str) : str :=
  capitalize base ++ lit " " ++ [em_dash] ++ lit " Premium Edition".

Definition mock_description (base : str) : str :=
  lit "The " ++ base
  ++ lit " designed for people who want quality and sustainability. Handcrafted and tested.".

Definition mock_ads (base : str) : list str :=
  [ lit "Try our " ++ base ++ lit " " ++ [em_dash] ++ lit " limited launch offer!";
    lit "Why our " ++ base ++ lit " is better: sustainable, durable, stylish.";
    lit "See how our " ++ base ++ lit " fits your life in 15 seconds." ].

End Backend.

(** ** Floats and their fixed-point formatting *)

(** A finite binary64 value, [mantissa * 2 ^ exponent], kept exact. *)
Record float : Type := mkFloat {
  mantissa : Z;
  exponent : Z
}.

(** [x] is the binary64 number a decimal literal [num / den] denotes: a
    normal 53-bit mantissa, strictly less than half a unit in the last place
    away from the decimal value. *)
Definition denotes (num den : Z) (x : float) : bool :=
  ((2 ^ 52 <=? mantissa x) && (mantissa x <? 2 ^ 53)
   && (exponent x <? 0)
   && (2 * Z.abs (mantissa x * den - num * 2 ^ (- exponent x)) <? den))%Z.

Definition f19_99 : float := mkFloat 5626684784446013 (-48).
Definition f24_99 : float := mkFloat 7034059667999293 (-48).
Definition f29_99 : float := mkFloat 8441434551552573 (-48).
Definition f49_99 : float := mkFloat 7035467042882847 (-47).

(** [n / d] rounded to the nearest integer, ties to even ([d > 0]). *)
Definition round_half_even (n d : Z) : Z :=
  let q := (n / d)%Z in
  let r := (n mod d)%Z in
  if (2 * r <? d)%Z then q
  else if (d <? 2 * r)%Z then (q + 1)%Z
  else if Z.even q then q else (q + 1)%Z.

(** [|x| * 10 ^ prec], correctly rounded to an integer. *)
Definition scaled (prec : nat) (x : float) : Z :=
  let m := (Z.abs (mantissa x) * 10 ^ Z.of_nat prec)%Z in
  if (0 <=? exponent x)%Z then (m * 2 ^ exponent x)%Z
  else round_half_even m (2 ^ (- exponent x)).

Definition digits (n : Z) : str :=
  lit (NilZero.string_of_uint (N.to_uint (Z.to_N n))).

Definition zero_pad (width : nat) (ds : str) : str :=
  repeat 48%N (width - length ds) ++ ds.

(** [format(x, '.<prec>f')] for a finite [x]. *)
Definition format_f (prec : nat) (x : float) : str :=
  let q := scaled prec x in
  let unit := (10 ^ Z.of_nat prec)%Z in
  (if (mantissa x <? 0)%Z then lit "-" else [])
  ++ digits (q / unit)
  ++ match prec with
     | O => []
     | _ => lit "." ++ zero_pad prec (digits (q mod unit))
     end.

Definition price_points : list float := [f19_99; f24_99; f29_99; f49_99].

Definition mock_price : Eff str :=
  p <- choice price_points ;;
  ret (lit "$" ++ format_f 2 p).

(** ** backend/main.py: the route *)

Record GenerateRequest : Type := mkRequest {
  idea : option str
}.

Record Brand : Type := mkBrand {
  name : str;
  logo : str
}.

Record Product : Type := mkProduct {
  title : str;
  description : str;
  price : str
}.

Record GenerateResponse : Type := mkResponse {
  brand : Brand;
  product : Product;
  ads : list str
}.

(** [x or d] on an optional string: [None] and the empty string are falsy. *)
Definition or_default (x : option str) (d : str) : str :=
  match x with
  | None => d
  | Some [] => d
  | Some s => s
  end.

Definition default_idea : str := lit "cool product".

Section Route.

Context `{CaseTables}.

Definition base_of (req : GenerateRequest) : str :=
  or_default (idea req) default_idea.

Definition generate (req : GenerateRequest) : Eff GenerateResponse :=
  let base := base_of req in
  n <- mock_brand_name base ;;
  let brand := {| name := n; logo := mock_logo_url base |} in
  p <- mock_price ;;
  let product := {| title := mock_title base;
                    description := mock_description base;
                    price := p |} in
  let ads := mock_ads base in
  ret {| brand := brand; product := product; ads := ads |}.

End Route.

(** ** frontend/pages/api/generate.js: the proxy route *)

Module Proxy.

Local Open Scope string_scope.

Unset Elimination Schemes.

Inductive json : Type :=
| JNull
| JBool (b : bool)
| JNum (n : Z)
| JStr (s : string)
| JArr (items : list json)
| JObj (fields : list (string * json)).

Set Elimination Schemes.

(** A thrown JavaScript error: its name and its message. *)
Record thrown : Type := mkThrown {
  error_name : string;
  error_message : string
}.

(** The completion of an expression that may throw. *)
Inductive completion (A : Type) : Type :=
| Normal (a : A)
| Throw (e : thrown).

Arguments Normal {A} a.
Arguments Throw {A} e.

Definition and_then {A B} (m : completion A) (k : A -> completion B)
  : completion B :=
  match m with
  | Normal a => k a
  | Throw e => Throw e
  end.

Notation "x <-- m ;; k" := (and_then m (fun x => k))
  (at level 61, m at next level, right associativity).

(** The incoming request: its method and its parsed body ([None] is
    [undefined]). *)
Record Request : Type := mkReq {
  method : string;
  body : option json
}.

(** The second argument of [fetch]. *)
Record FetchInit : Type := mkInit {
  init_method : string;
  init_headers : list (string * string);
  init_body : option string
}.

(** What [fetch] resolves to: the backend's status code, and what [r.json()]
    completes with (the parsed body, or the error of a body that is not
    JSON). *)
Record Reply : Type := mkReply {
  reply_status : nat;
  reply_json : completion json
}.

(** What the route reads from its surroundings: the environment variable, the
    serializer and the network. *)
Record Runtime : Type := mkRuntime {
  env_BACKEND_URL : option string;
  JSON_stringify : option json -> completion (option string);
  fetch : string -> FetchInit -> completion Reply
}.

Inductive Payload : Type :=
| NoBody
| JsonBody (data : json).

Record Response : Type := mkRes {
  status : nat;
  payload : Payload
}.

(** What a call of the route leaves behind: the response sent to the client
    and the errors written with [console.error]. *)
Record Served : Type := mkServed {
  response : Response;
  logged : list thrown
}.

(** [x || d] on an optional string: [undefined] and the empty string are
    falsy. *)
Definition or_else (x : option string) (d : string) : string :=
  match x with
  | None => d
  | Some "" => d
  | Some s => s
  end.

Definition default_backend : string := "http://localhost:8000/generate".

Definition backendUrl (rt : Runtime) : string :=
  or_else (env_BACKEND_URL rt) default_backend.

Definition backend_init (text : option string) : FetchInit :=
  {| init_method := "POST";
     init_headers := [("Content-Type", "application/json")];
     init_body := text |}.

(** The body of the [try] block, up to the value handed to [res.json]. *)
Definition relay (rt : Runtime) (req : Request) : completion json :=
  text <-- JSON_stringify rt (body req) ;;
  r <-- fetch rt (backendUrl rt) (backend_init text) ;;
  data <-- reply_json r ;;
  Normal data.

Definition proxy_failed : json :=
  JObj [("error", JStr "backend proxy failed")].

Definition handler (rt : Runtime) (req : Request) : Served :=
  if negb (String.eqb (method req) "POST") then
    {| response := {| status := 405; payload := NoBody |}; logged := [] |}
  else
    match relay rt req with
    | Normal data =>
        {| response := {| status := 200; payload := JsonBody data |};
           logged := [] |}
    | Throw err =>
        {| response := {| status := 500; payload := JsonBody proxy_failed |};
           logged := [err] |}
    end.

(** *** Answers and sample surroundings used in the statements *)

Definition method_not_allowed : Served :=
  {| response := {| status := 405; payload := NoBody |}; logged := [] |}.

Definition generic_failure : Response :=
  {| status := 500;
     payload := JsonBody (JObj [("error", JStr "backend proxy failed")]) |}.

(** A backend that cannot be reached: [fetch] rejects. *)
Definition unreachable : Runtime :=
  {| env_BACKEND_URL := None;
     JSON_stringify := fun _ => Normal (Some "{}");
     fetch := fun _ _ => Throw (mkThrown "TypeError" "fetch failed") |}.

(** A backend that answers [st] with a body that is not JSON. *)
Definition answers_text (st : nat) : Runtime :=
  {| env_BACKEND_URL := Some "http://backend:8000/generate";
     JSON_stringify := fun _ => Normal (Some "{}");
     fetch := fun _ _ =>
       Normal (mkReply st
                 (Throw (mkThrown "SyntaxError" "Unexpected token I in JSON"))) |}.

(** A backend that answers [st] with the JSON value [data]. *)
Definition answers_json (st : nat) (data : json) : Runtime :=
  {| env_BACKEND_URL := Some "";
     JSON_stringify := fun _ => Normal (Some "{}");
     fetch := fun _ _ => Normal (mkReply st (Normal data)) |}.

Definition post (b : option json) : Request := {| method := "POST"; body := b |}.

End Proxy.

(** ** frontend/components/Builder.jsx: the form *)

Module Builder.

Import Proxy.

Local Open Scope string_scope.

(** The three [useState] cells; [result] starts as [null]. *)
Record State : Type := mkState {
  idea : string;
  loading : bool;
  result : json
}.

Definition initial : State :=
  {| idea := ""; loading := false; result := JNull |}.

(** The page as a user and the network see it: the component state, the
    ideas captured by the calls of [handleGenerate] that are still awaiting
    their answer (oldest first), and what went to [alert] and to
    [console.error] so far (oldest first). *)
Record Page : Type := mkPage {
  view : State;
  awaited : list string;
  alerts : list string;
  console : list thrown
}.

Definition start : Page :=
  {| view := initial; awaited := []; alerts := []; console := [] |}.

Definition generate_init (text : option string) : FetchInit :=
  {| init_method := "POST";
     init_headers := [("Content-Type", "application/json")];
     init_body := text |}.

(** The body of the [try] block for the captured [idea], up to the value
    handed to [setResult]. *)
Definition exchange (rt : Runtime) (sent : string) : completion json :=
  text <-- JSON_stringify rt (Some (JObj [("idea", JStr sent)])) ;;
  resp <-- fetch rt "/api/generate" (generate_init text) ;;
  data <-- reply_json resp ;;
  Normal data.

Definition alert_message : string := "Failed to generate — check backend".

(** [handleGenerate] up to its [await]: the loading flag is set, the result
    cleared, and the request leaves with the idea as it is now. *)
Definition handleGenerate_begin (p : Page) : Page :=
  {| view := {| idea := idea (view p); loading := true; result := JNull |};
     awaited := awaited p ++ [idea (view p)];
     alerts := alerts p;
     console := console p |}.

(** [handleGenerate] from its [await] on, for the call that captured [sent]:
    [setResult(data)], or the [catch] block; then the [finally] block. *)
Definition handleGenerate_resume
    (rt : Runtime) (sent : string) (others : list string) (p : Page) : Page :=
  match exchange rt sent with
  | Normal data =>
      {| view := {| idea := idea (view p); loading := false; result := data |};
         awaited := others;
         alerts := alerts p;
         console := console p |}
  | Throw err =>
      {| view := {| idea := idea (view p); loading := false;
                    result := result (view p) |};
         awaited := others;
         alerts := alerts p ++ [alert_message];
         console := console p ++ [err] |}
  end.

(** What can happen to the page: typing into the input, the Reset button, a
    submit of the form, and the answer to the oldest awaited request. *)
Inductive event : Type :=
| Change (v : string)
| Reset
| Submit
| Settle.

(** The submit button is disabled while [loading], so a submit then does
    nothing. *)
Definition step (rt : Runtime) (ev : event) (p : Page) : Page :=
  match ev with
  | Change v =>
      {| view := {| idea := v; loading := loading (view p);
                    result := result (view p) |};
         awaited := awaited p; alerts := alerts p; console := console p |}
  | Reset =>
      {| view := {| idea := ""; loading := loading (view p); result := JNull |};
         awaited := awaited p; alerts := alerts p; console := console p |}
  | Submit =>
      if loading (view p) then p else handleGenerate_begin p
  | Settle =>
      match awaited p with
      | [] => p
      | sent :: others => handleGenerate_resume rt sent others p
      end
  end.

Definition run (rt : Runtime) (evs : list event) (p : Page) : Page :=
  fold_left (fun q ev => step rt ev q) evs p.

(** A submit whose answer arrives before anything else happens. *)
Definition handleGenerate (rt : Runtime) (p : Page) : Page :=
  step rt Settle (step rt Submit p).

(** *** Rendering *)

(** A JavaScript value read from parsed JSON; [None] is [undefined]. *)
Definition value : Type := option json.

(** The own property [k] of a parsed object, which holds each key once. *)
Fixpoint lookup (k : string) (fs : list (string * json)) : value :=
  match fs with
  | [] => None
  | (k', v) :: fs' => if String.eqb k k' then Some v else lookup k fs'
  end.

(** Reading a property of [undefined] or [null] throws a TypeError; the
    message, which differs between engines, is kept as the property read. *)
Definition type_error (k : string) : thrown := mkThrown "TypeError" k.

(** [v.k] for one of the keys the component reads, none of which is a
    built-in property of an array, a string, a number or a boolean. *)
Definition get (v : value) (k : string) : completion value :=
  match v with
  | None => Throw (type_error k)
  | Some JNull => Throw (type_error k)
  | Some (JObj fs) => Normal (lookup k fs)
  | Some _ => Normal None
  end.

Definition truthy (j : json) : bool :=
  match j with
  | JNull => false
  | JBool b => b
  | JNum n => negb (n =? 0)%Z
  | JStr s => negb (String.eqb s "")
  | JArr _ => true
  | JObj _ => true
  end.

(** The expressions of the preview block, in the order the JSX evaluates
    them. *)
Record Preview : Type := mkPreview {
  brand_name : value;
  brand_logo : value;
  product_title : value;
  product_description : value;
  product_price : value;
  ad_items : list json
}.

(** [result.ads.map(...)]: only an array has a [map] to call. *)
Definition items_of (ads : value) : completion (list json) :=
  match ads with
  | Some (JArr items) => Normal items
  | _ => Throw (type_error "map")
  end.

(** [result && ( ... )] *)
Definition preview (r : json) : completion (option Preview) :=
  if truthy r then
    b1 <-- get (Some r) "brand" ;;
    n <-- get b1 "name" ;;
    b2 <-- get (Some r) "brand" ;;
    l <-- get b2 "logo" ;;
    p1 <-- get (Some r) "product" ;;
    t <-- get p1 "title" ;;
    p2 <-- get (Some r) "product" ;;
    d <-- get p2 "description" ;;
    p3 <-- get (Some r) "product" ;;
    c <-- get p3 "price" ;;
    a <-- get (Some r) "ads" ;;
    items <-- items_of a ;;
    Normal (Some {| brand_name := n; brand_logo := l; product_title := t;
                    product_description := d; product_price := c;
                    ad_items := items |})
  else Normal None.

Record Screen : Type := mkScreen {
  input_value : string;
  submit_label : string;
  submit_disabled : bool;
  shown : option Preview
}.

(** The component function: it throws when the preview block does. *)
Definition render (s : State) : completion Screen :=
  pv <-- preview (result s) ;;
  Normal {| input_value := idea s;
            submit_label := if loading s then "Generating..." else "Generate Store";
            submit_disabled := loading s;
            shown := pv |}.

(** *** Vocabulary of the statements about the form *)

(** The reply the browser gets when the proxy route served [s]: the body
    written by [res.json], or no body after [res.end]. *)
Definition served_reply (s : Served) : Reply :=
  {| reply_status := status (response s);
     reply_json :=
       match payload (response s) with
       | JsonBody data => Normal data
       | NoBody => Throw (mkThrown "SyntaxError" "Unexpected end of JSON input")
       end |}.



(** What every page reached from the start satisfies: while loading, one
    request is awaited and no result is held; otherwise none is awaited;
    alerts and logged errors come in pairs. *)
Definition settled_or_waiting (p : Page) : Prop :=
  (loading (view p) = true ->
   result (view p) = JNull /\ exists sent, awaited p = [sent])
  /\ (loading (view p) = false -> awaited p = [])
  /\ length (alerts p) = length (console p).

(** An event that edits the form without submitting or settling. *)
Definition is_edit (ev : event) : bool :=
  match ev with
  | Change _ => true
  | Reset => true
  | _ => false
  end.

(** The idea left in the input by a run of edits. *)
Definition edited (evs : list event) (i : string) : string :=
  fold_left (fun acc ev => match ev with
                           | Change v => v
                           | Reset => ""
                           | _ => acc
                           end) evs i.

(** A browser whose request to the route is answered by [reply]. *)
Definition browser (reply : completion Reply) : Runtime :=
  {| env_BACKEND_URL := None;
     JSON_stringify := fun _ => Normal (Some "{}");
     fetch := fun url _ =>
       if String.eqb url "/api/generate" then reply
       else Throw (mkThrown "TypeError" "fetch failed") |}.

End Builder.

(** ** Vocabulary of the statements *)

Definition nonspace (c : codepoint) : bool := negb (isspace c).

(** The phrase has a whitespace-delimited token: some character of it is not
    whitespace. *)
Definition has_token (s : str) : bool := existsb nonspace s.

(** [rest] is empty or begins with a whitespace character. *)
Definition at_boundary (rest : str) : bool :=
  match rest with
  | [] => true
  | c :: _ => isspace c
  end.

(** [tok] is the first whitespace-delimited token of [s]: only whitespace
    comes before it, it is a non-empty run of other characters, and it ends
    at a whitespace character or at the end of [s]. *)
Definition first_token (s tok : str) : Prop :=
  exists ws rest,
    s = ws ++ tok ++ rest
    /\ forallb isspace ws = true
    /\ tok <> []
    /\ forallb nonspace tok = true
    /\ at_boundary rest = true.

(** [needle] occurs in [s] as a contiguous run. *)
Fixpoint contains (s needle : str) : bool :=
  is_prefix needle s
  || match s with
     | [] => false
     | _ :: s' => contains s' needle
     end.

Definition plus : codepoint := 43%N.
Definition space : codepoint := 32%N.

(** The phrase with every whitespace character replaced by [+]. *)
Definition whitespace_to_plus (s : str) : str :=
  map (fun c => if isspace c then plus else c) s.

(** The phrase with every space character (U+0020) replaced by [+]. *)
Definition spaces_to_plus (s : str) : str :=
  map (fun c => if (c =? space)%N then plus else c) s.

Definition const_draws (k : nat) : Random :=
  {| draws := fun _ => k; cursor := 0 |}.

Definition price_strings : list str :=
  [lit "$19.99"; lit "$24.99"; lit "$29.99"; lit "$49.99"].

Definition map_outcome {A B} (f : A -> B) (o : outcome A) : outcome B :=
  match o with
  | Ok a => Ok (f a)
  | Raise e => Raise e
  end.

(** The fields of a response that no draw enters. *)
Definition fixed_fields (r : GenerateResponse) : str * str * str * list str :=
  (logo (brand r), title (product r), description (product r), ads r).

(** The response the route builds for the phrase [base] from a brand name
    [n] and a price [p]. *)
Definition response_of `{CaseTables} (base n p : str) : GenerateResponse :=
  {| brand := {| name := n; logo := mock_logo_url base |};
     product := {| title := mock_title base;
                   description := mock_description base;
                   price := p |};
     ads := mock_ads base |}.

(** Every character of the phrase is ASCII. *)
Definition all_ascii (s : str) : bool := forallb (fun c => (c <? 128)%N) s.

(** The case tables [T] map ASCII characters as Unicode does: an ASCII
    character title-cases to its upper-case letter and lower-cases to its
    lower-case letter wherever it stands. *)
Definition ascii_agree (T : CaseTables) : Prop :=
  forall c, (c <? 128)%N = true ->
    title_full c = [ascii_title c]
    /\ forall s i, nth_error s i = Some c -> lower_at s i = [ascii_lower c].

Definition no_space (s : str) : bool :=
  forallb (fun c => negb (c =? space)%N) s.

(** A source whose next draw is [i] and whose later draws are all [j]. *)
Definition two_draws (i j : nat) : Random :=
  {| draws := fun k => match k with O => i | S _ => j end; cursor := 0 |}.

(** The idea is absent, empty, or has a character that is not whitespace. *)
Definition servable (req : GenerateRequest) : bool :=
  match idea req with
  | None => true
  | Some [] => true
  | Some s => has_token s
  end.

(** ** Splitting on whitespace *)

Lemma split_space (c : codepoint) (s : str) :
  isspace c = true -> split (c :: s) = split s.
Proof.
  intros Hc. unfold split. simpl. now rewrite Hc.
Qed.

Lemma read_token (s : str) :
  forall acc, acc <> [] ->
  exists tok rest,
    s = tok ++ rest
    /\ forallb nonspace tok = true
    /\ at_boundary rest = true
    /\ split_from acc s = (rev acc ++ tok) :: split rest.
Proof.
  induction s as [|c s IH]; intros acc Hacc.
  - exists [], []. simpl. rewrite app_nil_r.
    destruct acc; [contradiction|]. repeat split; reflexivity.
  - destruct (isspace c) eqn:Hc.
    + exists [], (c :: s). simpl. rewrite Hc, app_nil_r.
      rewrite split_space by assumption.
      destruct acc; [contradiction|]. repeat split; reflexivity.
    + destruct (IH (c :: acc)) as (tok & rest & Hs & Htok & Hrest & Hsplit);
        [discriminate|].
      exists (c :: tok), rest. simpl. unfold nonspace at 1.
      rewrite Hc, Htok, Hsplit. simpl. rewrite <- app_assoc. simpl.
      subst s. repeat split; assumption.
Qed.

Lemma split_first_token (s : str) :
  has_token s = true ->
  exists tok rest, first_token s tok /\ split s = tok :: rest.
Proof.
  induction s as [|c s IH]; simpl; [discriminate|].
  unfold nonspace at 1. destruct (isspace c) eqn:Hc; simpl; intros Hs.
  - destruct (IH Hs) as (tok & rest & (ws & tl & E & Hws & Hne & Htok & Htl) & Hsplit).
    exists tok, rest. split.
    + exists (c :: ws), tl. simpl. rewrite Hc, E. repeat split; assumption.
    + now rewrite split_space.
  - destruct (read_token s [c]) as (tok & tl & E & Htok & Htl & Hsplit);
      [discriminate|].
    exists (c :: tok), (split tl). split.
    + exists [], tl. simpl. unfold nonspace at 1. rewrite Hc, E.
      repeat split; try assumption. discriminate.
    + unfold split. simpl. rewrite Hc. exact Hsplit.
Qed.

Lemma split_no_token (s : str) :
  has_token s = false -> split s = [].
Proof.
  induction s as [|c s IH]; simpl; [reflexivity|].
  unfold nonspace at 1. destruct (isspace c) eqn:Hc; simpl; [|discriminate].
  intros Hs. rewrite split_space by assumption. exact (IH Hs).
Qed.

(** The first token of a phrase is unique. *)
Lemma first_token_unique (s t1 t2 : str) :
  first_token s t1 -> first_token s t2 -> t1 = t2.
Proof.
  assert (Hsplit : forall s tok, first_token s tok -> hd_error (split s) = Some tok).
  { clear. intros s tok (ws & rest & E & Hws & Hne & Htok & Hrest). subst s.
    induction ws as [|w ws IH]; simpl in *.
    - destruct tok as [|c tok]; [contradiction|]. clear Hne.
      simpl in Htok. apply andb_prop in Htok as [Hc Htok].
      unfold nonspace in Hc. apply negb_true_iff in Hc.
      unfold split. simpl. rewrite Hc.
      assert (G : forall acc, hd_error (split_from acc (tok ++ rest))
                              = Some (rev acc ++ tok) \/ acc = []).
      { revert Htok. clear - Hrest. induction tok as [|d tok IHt]; simpl; intros Htok acc.
        - destruct acc as [|a acc]; [now right|left].
          rewrite app_nil_r. destruct rest as [|r rest]; simpl; [reflexivity|].
          simpl in Hrest. rewrite Hrest. reflexivity.
        - apply andb_prop in Htok as [Hd Htok].
          unfold nonspace in Hd. apply negb_true_iff in Hd. rewrite Hd.
          destruct (IHt Htok (d :: acc)) as [G|G]; [|discriminate].
          left. rewrite G. simpl. now rewrite <- app_assoc. }
      destruct (G [c]) as [G'|G']; [exact G'|discriminate].
    - apply andb_prop in Hws as [Hw Hws].
      rewrite split_space by assumption. apply IH. assumption. }
  intros H1 H2. apply Hsplit in H1, H2. congruence.
Qed.

(** ** Drawing from a sequence *)

Lemma choice_nonempty {A} (l : list A) (g : Random) :
  l <> [] ->
  exists a,
    nth_error l (next_draw g mod length l) = Some a
    /\ In a l
    /\ choice l g = (Ok a, advance g).
Proof.
  intros Hl.
  assert (Hlen : length l <> 0) by (destruct l; [contradiction|discriminate]).
  pose proof (Nat.mod_upper_bound (next_draw g) (length l) Hlen) as Hlt.
  destruct (nth_error l (next_draw g mod length l)) as [a|] eqn:E.
  - exists a. split; [reflexivity|]. split; [eapply nth_error_In; eassumption|].
    destruct l; [contradiction|].
    unfold choice, bind, randbelow, index. now rewrite E.
  - apply nth_error_None in E. lia.
Qed.

(** ** The brand name *)

Section BrandName.

Context `{CaseTables}.

Lemma mock_brand_name_token (base tok : str) (rest : list str) (g : Random) :
  split base = tok :: rest ->
  exists suffix,
    nth_error parts (next_draw g mod 8) = Some suffix
    /\ In suffix parts
    /\ mock_brand_name base g
       = (Ok (slice_to 30 (capitalize tok ++ suffix)), advance g).
Proof.
  intros Hsplit.
  destruct (choice_nonempty parts g) as (suffix & Hnth & Hin & Hch);
    [discriminate|].
  change (length parts) with 8 in Hnth.
  exists suffix. repeat split; try assumption.
  unfold mock_brand_name, bind, index. rewrite Hsplit.
  change (nth_error (tok :: rest) 0) with (Some tok). cbv beta iota.
  unfold ret at 1. now rewrite Hch.
Qed.

Lemma mock_brand_name_no_token (base : str) (g : Random) :
  has_token base = false ->
  mock_brand_name base g = (Raise IndexError, g).
Proof.
  intros Hs. unfold mock_brand_name, bind, index.
  now rewrite (split_no_token base Hs).
Qed.

(** [mock_brand_name] returns exactly on the phrases that have a token. *)
Lemma mock_brand_name_returns_iff (base : str) (g : Random) :
  (exists n, fst (mock_brand_name base g) = Ok n) <-> has_token base = true.
Proof.
  split.
  - intros [n Hn]. destruct (has_token base) eqn:E; [reflexivity|].
    rewrite mock_brand_name_no_token in Hn by assumption. discriminate.
  - intros Hs. destruct (split_first_token base Hs) as (tok & rest & _ & Hsplit).
    destruct (mock_brand_name_token base tok rest g Hsplit) as (sfx & _ & _ & E).
    eexists. rewrite E. reflexivity.
Qed.

Lemma mock_brand_name_first_token (base : str) (g : Random) :
  has_token base = true ->
  exists tok suffix,
    first_token base tok
    /\ nth_error parts (next_draw g mod 8) = Some suffix
    /\ In suffix parts
    /\ mock_brand_name base g
       = (Ok (slice_to 30 (capitalize tok ++ suffix)), advance g).
Proof.
  intros Hs.
  destruct (split_first_token base Hs) as (tok & rest & Hfirst & Hsplit).
  destruct (mock_brand_name_token base tok rest g Hsplit)
    as (suffix & Hnth & Hin & Hrun).
  exists tok, suffix. repeat split; assumption.
Qed.

(** C2: for a phrase with at least one whitespace-delimited token, the brand
    name is the capitalized first token followed by one of the eight
    suffixes (the one the draw selects), cut to 30 characters; so it has at
    most 30 characters. *)
Theorem mock_brand_name_spec (base : str) (g : Random) :
  has_token base = true ->
  exists tok suffix,
    first_token base tok
    /\ In suffix parts
    /\ length parts = 8
    /\ nth_error parts (next_draw g mod 8) = Some suffix
    /\ mock_brand_name base g
       = (Ok (firstn 30 (capitalize tok ++ suffix)), advance g)
    /\ length (firstn 30 (capitalize tok ++ suffix)) <= 30.
Proof.
  intros Hs.
  destruct (mock_brand_name_first_token base g Hs)
    as (tok & suffix & Hfirst & Hnth & Hin & Hrun).
  exists tok, suffix. repeat split; try assumption.
  apply firstn_le_length.
Qed.

(** C1: [mock_brand_name] raises IndexError on the empty phrase, on a single
    space and on a tab, a space and a newline, without drawing: the helper is
    not total. *)
Theorem mock_brand_name_raises_on_blank (g : Random) :
  mock_brand_name [] g = (Raise IndexError, g)
  /\ mock_brand_name (lit " ") g = (Raise IndexError, g)
  /\ mock_brand_name [9%N; 32%N; 10%N] g = (Raise IndexError, g).
Proof.
  repeat split; apply mock_brand_name_no_token; reflexivity.
Qed.

End BrandName.

(** ** The price *)

Lemma price_points_denote :
  denotes 1999 100 f19_99 = true
  /\ denotes 2499 100 f24_99 = true
  /\ denotes 2999 100 f29_99 = true
  /\ denotes 4999 100 f49_99 = true.
Proof. repeat split; vm_compute; reflexivity. Qed.

Lemma price_points_formatted :
  map (fun p => lit "$" ++ format_f 2 p) price_points = price_strings.
Proof. vm_compute. reflexivity. Qed.

Lemma mock_price_run (g : Random) :
  exists s,
    mock_price g = (Ok s, advance g)
    /\ nth_error price_strings (next_draw g mod 4) = Some s.
Proof.
  destruct (choice_nonempty price_points g) as (p & Hnth & Hin & Hch);
    [discriminate|].
  exists (lit "$" ++ format_f 2 p). split.
  - unfold mock_price, bind. now rewrite Hch.
  - rewrite <- price_points_formatted.
    change (length price_points) with 4 in Hnth.
    now rewrite nth_error_map, Hnth.
Qed.

(** C6: every call of [mock_price] returns one of the four strings $19.99,
    $24.99, $29.99 and $49.99: the price point the draw selects, written
    with two decimals after a dollar sign; each of the four is returned
    under some draw. *)
Theorem mock_price_values (g : Random) :
  exists s,
    mock_price g = (Ok s, advance g)
    /\ nth_error price_strings (next_draw g mod 4) = Some s
    /\ In s price_strings
    /\ price_strings
       = [lit "$19.99"; lit "$24.99"; lit "$29.99"; lit "$49.99"]
    /\ map (fun p => lit "$" ++ format_f 2 p) price_points = price_strings
    /\ map (fun k => fst (mock_price (const_draws k))) [0; 1; 2; 3]
       = map Ok price_strings.
Proof.
  destruct (mock_price_run g) as (s & Hrun & Hnth).
  exists s. split; [exact Hrun|]. split; [exact Hnth|].
  split; [eapply nth_error_In; exact Hnth|].
  split; [reflexivity|]. split; [apply price_points_formatted|].
  vm_compute. reflexivity.
Qed.

(** ** The logo URL *)

Lemma str_eqb_refl (s : str) : str_eqb s s = true.
Proof. unfold str_eqb. destruct (list_eq_dec N.eq_dec s s); congruence. Qed.

Lemma is_prefix_single (c a : codepoint) (s : str) :
  is_prefix [c] (a :: s) = (a =? c)%N.
Proof.
  unfold is_prefix, str_eqb.
  change (firstn (length [c]) (a :: s)) with [a].
  destruct (list_eq_dec N.eq_dec [a] [c]) as [E|E];
    destruct (N.eqb_spec a c); congruence.
Qed.

(** Replacing a one-character pattern by a one-character string is a
    character-wise substitution. *)
Lemma replace_single (c d : codepoint) (s : str) :
  replace [c] [d] s = map (fun x => if (x =? c)%N then d else x) s.
Proof.
  unfold replace. induction s as [|a s IH]; [reflexivity|].
  cbn [replace_scan map]. rewrite is_prefix_single.
  change (length [c] - 1) with 0.
  destruct (a =? c)%N; simpl; now rewrite IH.
Qed.

Lemma contains_app_r (p s : str) : contains (p ++ s) s = true.
Proof.
  induction p as [|a p IH]; simpl.
  - assert (E : is_prefix s s = true).
    { unfold is_prefix. now rewrite firstn_all, str_eqb_refl. }
    destruct s; cbn [contains]; now rewrite E.
  - rewrite IH. apply orb_true_r.
Qed.

(** Where the only whitespace of a phrase is the space character, replacing
    spaces and replacing whitespace agree. *)
Lemma spaces_to_plus_whitespace (s : str) :
  (forall c, In c s -> isspace c = true -> c = space) ->
  spaces_to_plus s = whitespace_to_plus s.
Proof.
  intros Hs. apply map_ext_in. intros c Hc.
  destruct (N.eqb_spec c space) as [E|E].
  - subst c. reflexivity.
  - destruct (isspace c) eqn:Hsp; [|reflexivity].
    elim E. now apply Hs.
Qed.

(** C3, as amended: the logo URL is the fixed placeholder address followed by
    the phrase with every space character (U+0020) replaced by [+]; so it
    contains that text. *)
Theorem mock_logo_url_spaces (base : str) :
  mock_logo_url base = logo_prefix ++ spaces_to_plus base
  /\ contains (mock_logo_url base) (spaces_to_plus base) = true.
Proof.
  assert (E : mock_logo_url base = logo_prefix ++ spaces_to_plus base).
  { unfold mock_logo_url, spaces_to_plus.
    change (lit " ") with [space]. change (lit "+") with [plus].
    now rewrite replace_single. }
  split; [exact E|]. rewrite E. apply contains_app_r.
Qed.

(** C3, as stated, fails on a phrase with a tab between two words: the tab
    is whitespace and stays in the URL, so the URL does not contain the
    phrase with its whitespace replaced by [+]. *)
Lemma mock_logo_url_keeps_tab :
  isspace 9%N = true
  /\ whitespace_to_plus [97%N; 9%N; 98%N] = lit "a+b"
  /\ mock_logo_url [97%N; 9%N; 98%N] = logo_prefix ++ [97%N; 9%N; 98%N]
  /\ contains (mock_logo_url [97%N; 9%N; 98%N])
              (whitespace_to_plus [97%N; 9%N; 98%N]) = false.
Proof. repeat split; vm_compute; reflexivity. Qed.

(** ** The route *)

Section RouteFacts.

Context `{CaseTables}.

Lemma generate_returns (req : GenerateRequest) (g : Random) :
  has_token (base_of req) = true ->
  exists n p,
    mock_brand_name (base_of req) g = (Ok n, advance g)
    /\ mock_price (advance g) = (Ok p, advance (advance g))
    /\ generate req g = (Ok (response_of (base_of req) n p), advance (advance g)).
Proof.
  intros Hs.
  destruct (mock_brand_name_first_token (base_of req) g Hs)
    as (tok & sfx & _ & _ & _ & Hn).
  destruct (mock_price_run (advance g)) as (p & Hp & _).
  exists (slice_to 30 (capitalize tok ++ sfx)), p.
  repeat split; try assumption.
  unfold generate, bind. now rewrite Hn, Hp.
Qed.

Lemma generate_raises (req : GenerateRequest) (g : Random) :
  has_token (base_of req) = false ->
  generate req g = (Raise IndexError, g).
Proof.
  intros Hs. unfold generate, bind.
  now rewrite mock_brand_name_no_token.
Qed.

(** Every response has three ads: the three templates around the phrase, in
    the order of the source. *)
Lemma generate_shape (req : GenerateRequest) (g : Random) :
  has_token (base_of req) = true ->
  exists r,
    fst (generate req g) = Ok r
    /\ ads r = mock_ads (base_of req)
    /\ length (ads r) = 3
    /\ length (name (brand r)) <= 30
    /\ In (price (product r)) price_strings.
Proof.
  intros Hs.
  destruct (mock_brand_name_first_token (base_of req) g Hs)
    as (tok & sfx & _ & _ & _ & Hn).
  destruct (mock_price_run (advance g)) as (p & Hp & Hnth).
  exists (response_of (base_of req) (slice_to 30 (capitalize tok ++ sfx)) p).
  repeat split.
  - unfold generate, bind. now rewrite Hn, Hp.
  - apply firstn_le_length.
  - eapply nth_error_In. exact Hnth.
Qed.

(** C4: a request without an idea is served as the phrase "cool product":
    the route does what it does for that phrase when supplied, and returns a
    response with a brand, a product and the three ads of that phrase. *)
Theorem generate_absent_idea (g : Random) :
  base_of {| idea := None |} = lit "cool product"
  /\ generate {| idea := None |} g
     = generate {| idea := Some (lit "cool product") |} g
  /\ exists n p,
       generate {| idea := None |} g
       = (Ok (response_of (lit "cool product") n p), advance (advance g))
       /\ ads (response_of (lit "cool product") n p)
          = mock_ads (lit "cool product")
       /\ length (ads (response_of (lit "cool product") n p)) = 3.
Proof.
  split; [reflexivity|]. split; [reflexivity|].
  destruct (generate_returns {| idea := None |} g) as (n & p & _ & _ & E);
    [reflexivity|].
  exists n, p. repeat split. exact E.
Qed.

(** C9: an idea that is the empty string is replaced by "cool product" as an
    absent one is, so the phrase handed to the helpers is never empty. *)
Theorem generate_empty_idea (g : Random) :
  base_of {| idea := Some [] |} = lit "cool product"
  /\ generate {| idea := Some [] |} g = generate {| idea := None |} g
  /\ forall req, base_of req <> [].
Proof.
  split; [reflexivity|]. split; [reflexivity|].
  intros [[[|c s]|]]; discriminate.
Qed.

(** C5: on an idea that is a single space the route raises IndexError
    instead of returning a response, although the phrase is accepted. *)
Theorem generate_blank_idea_raises (g : Random) :
  base_of {| idea := Some (lit " ") |} = lit " "
  /\ generate {| idea := Some (lit " ") |} g = (Raise IndexError, g).
Proof.
  split; [reflexivity|]. apply generate_raises. reflexivity.
Qed.

Lemma generate_fixed_fields (req : GenerateRequest) (g1 g2 : Random) :
  map_outcome fixed_fields (fst (generate req g1))
  = map_outcome fixed_fields (fst (generate req g2)).
Proof.
  destruct (has_token (base_of req)) eqn:Hs.
  - destruct (generate_returns req g1 Hs) as (n1 & p1 & _ & _ & E1).
    destruct (generate_returns req g2 Hs) as (n2 & p2 & _ & _ & E2).
    rewrite E1, E2. reflexivity.
  - now rewrite !generate_raises.
Qed.

Lemma generate_price_varies :
  exists req g1 g2 r1 r2,
    fst (generate req g1) = Ok r1
    /\ fst (generate req g2) = Ok r2
    /\ price (product r1) = lit "$19.99"
    /\ price (product r2) = lit "$24.99".
Proof.
  set (req := {| idea := Some (lit "eco-friendly phone case") |}).
  destruct (generate_returns req (const_draws 0)) as (n1 & p1 & _ & P1 & E1);
    [reflexivity|].
  destruct (generate_returns req (const_draws 1)) as (n2 & p2 & _ & P2 & E2);
    [reflexivity|].
  exists req, (const_draws 0), (const_draws 1),
    (response_of (base_of req) n1 p1), (response_of (base_of req) n2 p2).
  rewrite E1, E2. cbn [fst response_of price product]. repeat split.
  - destruct (mock_price_run (advance (const_draws 0))) as (s & Hs & Hn).
    rewrite P1 in Hs. injection Hs as Hs.
    change (Some (lit "$19.99") = Some s) in Hn. congruence.
  - destruct (mock_price_run (advance (const_draws 1))) as (s & Hs & Hn).
    rewrite P2 in Hs. injection Hs as Hs.
    change (Some (lit "$24.99") = Some s) in Hn. congruence.
Qed.

End RouteFacts.

(** The scenario of the phrase "eco-friendly phone case", under the ASCII
    tables and draws that are all 0. *)
Lemma generate_eco_friendly :
  fst (generate (H := AsciiTables)
         {| idea := Some (lit "eco-friendly phone case") |} (const_draws 0))
  = Ok {| brand :=
            {| name := lit "Eco-friendlyCo";
               logo := lit "https://via.placeholder.com/256x256.png?text=eco-friendly+phone+case" |};
          product :=
            {| title := lit "Eco-friendly phone case " ++ [em_dash]
                        ++ lit " Premium Edition";
               description := lit "The eco-friendly phone case designed for people who want quality and sustainability. Handcrafted and tested.";
               price := lit "$19.99" |};
          ads :=
            [ lit "Try our eco-friendly phone case " ++ [em_dash]
              ++ lit " limited launch offer!";
              lit "Why our eco-friendly phone case is better: sustainable, durable, stylish.";
              lit "See how our eco-friendly phone case fits your life in 15 seconds." ] |}.
Proof. vm_compute. reflexivity. Qed.

(** C8: the route is not idempotent. The same request served under two
    draws gives two responses with different prices, and (on an ASCII
    phrase) different brand names; the logo, the title, the description and
    the ads are the same under every draw. *)
Theorem generate_not_idempotent :
  (forall T : CaseTables,
      exists req g1 g2 r1 r2,
        fst (generate req g1) = Ok r1
        /\ fst (generate req g2) = Ok r2
        /\ price (product r1) <> price (product r2))
  /\ (exists req g1 g2 r1 r2,
        fst (generate (H := AsciiTables) req g1) = Ok r1
        /\ fst (generate (H := AsciiTables) req g2) = Ok r2
        /\ name (brand r1) = lit "Eco-friendlyCo"
        /\ name (brand r2) = lit "Eco-friendlyLab"
        /\ r1 <> r2)
  /\ (forall (T : CaseTables) req g1 g2,
        map_outcome fixed_fields (fst (generate req g1))
        = map_outcome fixed_fields (fst (generate req g2))).
Proof.
  split; [|split].
  - intros T.
    destruct generate_price_varies as (req & g1 & g2 & r1 & r2 & E1 & E2 & P1 & P2).
    exists req, g1, g2, r1, r2. repeat split; try assumption.
    rewrite P1, P2. discriminate.
  - exists {| idea := Some (lit "eco-friendly phone case") |},
      (const_draws 0), (const_draws 1).
    eexists. eexists.
    split; [vm_compute; reflexivity|]. split; [vm_compute; reflexivity|].
    split; [reflexivity|]. split; [reflexivity|]. discriminate.
  - intros T req g1 g2. apply generate_fixed_fields.
Qed.

(** C2 on the phrase "eco-friendly phone case", with the ASCII tables and a
    source whose draws are all 0. *)
Lemma mock_brand_name_spec_witness :
  has_token (lit "eco-friendly phone case") = true
  /\ exists tok suffix,
       first_token (lit "eco-friendly phone case") tok
       /\ In suffix parts
       /\ length parts = 8
       /\ nth_error parts (next_draw (const_draws 0) mod 8) = Some suffix
       /\ mock_brand_name (H := AsciiTables) (lit "eco-friendly phone case")
            (const_draws 0)
          = (Ok (firstn 30 (capitalize (H := AsciiTables) tok ++ suffix)),
             advance (const_draws 0))
       /\ length (firstn 30 (capitalize (H := AsciiTables) tok ++ suffix)) <= 30.
Proof.
  split; [reflexivity|].
  apply (mock_brand_name_spec (H := AsciiTables)
           (lit "eco-friendly phone case") (const_draws 0)).
  reflexivity.
Defined.

(** ** The proxy route *)

Module ProxyFacts.

Import Proxy.

Local Open Scope string_scope.

Lemma handler_not_post (rt : Runtime) (req : Request) :
  method req <> "POST" -> handler rt req = method_not_allowed.
Proof.
  intros Hm. unfold handler.
  destruct (String.eqb_spec (method req) "POST"); [contradiction|reflexivity].
Qed.

Lemma handler_post (rt : Runtime) (req : Request) :
  method req = "POST" ->
  handler rt req
  = match relay rt req with
    | Normal data =>
        {| response := {| status := 200; payload := JsonBody data |};
           logged := [] |}
    | Throw err => {| response := generic_failure; logged := [err] |}
    end.
Proof.
  intros Hm. unfold handler. rewrite Hm. reflexivity.
Qed.

(** C7: a request whose method is not POST is answered 405; when [fetch]
    rejects, or when the reply's body does not parse as JSON, the answer is
    500 with the one body [{ error: 'backend proxy failed' }], whatever the
    error was (which only the server's log keeps). *)
Theorem handler_errors (rt : Runtime) (req : Request) :
  (method req <> "POST" ->
   status (response (handler rt req)) = 405
   /\ payload (response (handler rt req)) = NoBody)
  /\ (method req = "POST" ->
      forall text e,
        JSON_stringify rt (body req) = Normal text ->
        fetch rt (backendUrl rt) (backend_init text) = Throw e ->
        handler rt req = {| response := generic_failure; logged := [e] |})
  /\ (method req = "POST" ->
      forall text r e,
        JSON_stringify rt (body req) = Normal text ->
        fetch rt (backendUrl rt) (backend_init text) = Normal r ->
        reply_json r = Throw e ->
        handler rt req = {| response := generic_failure; logged := [e] |}).
Proof.
  split; [|split].
  - intros Hm. rewrite handler_not_post by assumption. split; reflexivity.
  - intros Hm text e Hs Hf. rewrite handler_post by assumption.
    unfold relay. rewrite Hs. simpl. rewrite Hf. reflexivity.
  - intros Hm text r e Hs Hf Hj. rewrite handler_post by assumption.
    unfold relay. rewrite Hs. simpl. rewrite Hf. simpl. rewrite Hj. reflexivity.
Qed.

(** C7 on a GET request, on a POST to an unreachable backend and on a POST
    to a backend that answers 502 with text. *)
Lemma handler_errors_witness :
  (method {| method := "GET"; body := None |} <> "POST"
   /\ status (response (handler unreachable {| method := "GET"; body := None |}))
      = 405)
  /\ (fetch unreachable (backendUrl unreachable) (backend_init (Some "{}"))
      = Throw (mkThrown "TypeError" "fetch failed")
      /\ response (handler unreachable (post (Some JNull))) = generic_failure)
  /\ (reply_json (mkReply 502 (Throw (mkThrown "SyntaxError" "Unexpected token I in JSON")))
      = Throw (mkThrown "SyntaxError" "Unexpected token I in JSON")
      /\ response (handler (answers_text 502) (post (Some JNull)))
         = generic_failure).
Proof.
  split; [|split]; (split; [first [discriminate | reflexivity]|]).
  - apply (handler_errors unreachable {| method := "GET"; body := None |}).
    discriminate.
  - destruct (handler_errors unreachable (post (Some JNull))) as (_ & H & _).
    rewrite (H eq_refl (Some "{}") (mkThrown "TypeError" "fetch failed")
               eq_refl eq_refl).
    reflexivity.
  - destruct (handler_errors (answers_text 502) (post (Some JNull)))
      as (_ & _ & H).
    rewrite (H eq_refl (Some "{}")
               (mkReply 502
                  (Throw (mkThrown "SyntaxError" "Unexpected token I in JSON")))
               (mkThrown "SyntaxError" "Unexpected token I in JSON")
               eq_refl eq_refl eq_refl).
    reflexivity.
Defined.

(** C10: when the backend's reply parses as JSON, the client is answered 200
    with the parsed body, whatever the status of the reply was. *)
Theorem handler_relays_any_status
    (rt : Runtime) (req : Request) (text : option string)
    (st : nat) (data : json) :
  method req = "POST" ->
  JSON_stringify rt (body req) = Normal text ->
  fetch rt (backendUrl rt) (backend_init text)
  = Normal {| reply_status := st; reply_json := Normal data |} ->
  handler rt req
  = {| response := {| status := 200; payload := JsonBody data |};
       logged := [] |}.
Proof.
  intros Hm Hs Hf. rewrite handler_post by assumption.
  unfold relay. rewrite Hs. simpl. rewrite Hf. reflexivity.
Qed.

(** C10 on a backend that answers 422 with a JSON body. *)
Lemma handler_relays_any_status_witness :
  method (post (Some (JObj [("idea", JNum 7)]))) = "POST"
  /\ fetch (answers_json 422 (JObj [("detail", JStr "unprocessable")]))
       (backendUrl (answers_json 422 (JObj [("detail", JStr "unprocessable")])))
       (backend_init (Some "{}"))
     = Normal (mkReply 422 (Normal (JObj [("detail", JStr "unprocessable")])))
  /\ handler (answers_json 422 (JObj [("detail", JStr "unprocessable")]))
       (post (Some (JObj [("idea", JNum 7)])))
     = {| response :=
            {| status := 200;
               payload := JsonBody (JObj [("detail", JStr "unprocessable")]) |};
          logged := [] |}.
Proof.
  split; [reflexivity|]. split; [reflexivity|].
  apply (handler_relays_any_status
           (answers_json 422 (JObj [("detail", JStr "unprocessable")]))
           (post (Some (JObj [("idea", JNum 7)]))) (Some "{}") 422);
    reflexivity.
Defined.

End ProxyFacts.

(** ** More on the mock helpers *)

Lemma first_token_has_token (s tok : str) :
  first_token s tok -> has_token s = true.
Proof.
  intros (ws & rest & E & _ & Hne & Htok & _). subst s.
  unfold has_token. rewrite !existsb_app.
  destruct tok as [|c tok]; [contradiction|].
  simpl in *. apply andb_prop in Htok as [Hc _]. rewrite Hc.
  simpl. apply orb_true_r.
Qed.

Lemma first_token_split (s tok : str) :
  first_token s tok -> exists rest, split s = tok :: rest.
Proof.
  intros Hfirst.
  destruct (split_first_token s (first_token_has_token s tok Hfirst))
    as (tok' & rest & Hfirst' & Hsplit).
  exists rest. now rewrite (first_token_unique s tok tok' Hfirst Hfirst').
Qed.

Lemma firstn_app_long {A} (n : nat) (l1 l2 : list A) :
  n <= length l1 -> firstn n (l1 ++ l2) = firstn n l1.
Proof.
  intros Hn. rewrite firstn_app.
  replace (n - length l1) with 0 by lia. simpl. apply app_nil_r.
Qed.

Lemma firstn_exact {A} (l1 l2 : list A) :
  firstn (length l1) (l1 ++ l2) = l1.
Proof. induction l1 as [|a l1 IH]; cbn [length app firstn]; [now destruct l2|now rewrite IH]. Qed.

Lemma skipn_exact {A} (l1 l2 : list A) :
  skipn (length l1) (l1 ++ l2) = l2.
Proof. induction l1 as [|a l1 IH]; cbn [length app skipn]; [reflexivity|exact IH]. Qed.

Lemma ascii_tables_agree : ascii_agree AsciiTables.
Proof.
  intros c _. split; [reflexivity|].
  intros s i Hi. cbv [lower_at AsciiTables]. unfold codepoint in *.
  now rewrite Hi.
Qed.

Lemma ascii_lower_at (T : CaseTables) (pre rest : str) :
  ascii_agree T ->
  all_ascii rest = true ->
  flat_map (lower_at (pre ++ rest)) (seq (length pre) (length rest))
  = map ascii_lower rest.
Proof.
  intros HT. revert pre.
  induction rest as [|x rest IH]; intros pre Hrest; [reflexivity|].
  cbn [all_ascii forallb] in Hrest. apply andb_prop in Hrest as [Hx Hrest].
  cbn [length seq flat_map map].
  assert (E : lower_at (pre ++ x :: rest) (length pre) = [ascii_lower x]).
  { apply (HT x Hx). rewrite nth_error_app2 by lia.
    now rewrite Nat.sub_diag. }
  rewrite E. cbn [app]. f_equal.
  specialize (IH (pre ++ [x]) Hrest).
  rewrite <- app_assoc, length_app, Nat.add_1_r in IH. exact IH.
Qed.

(** On an ASCII string, [capitalize] upper-cases the first letter and
    lower-cases every later one. *)
Lemma capitalize_ascii (T : CaseTables) (c : codepoint) (rest : str) :
  ascii_agree T ->
  all_ascii (c :: rest) = true ->
  capitalize (c :: rest) = ascii_title c :: map ascii_lower rest.
Proof.
  intros HT Hs. cbn [all_ascii forallb] in Hs.
  apply andb_prop in Hs as [Hc Hrest].
  unfold capitalize. rewrite (proj1 (HT c Hc)). cbn [app]. f_equal.
  exact (ascii_lower_at T [c] rest HT Hrest).
Qed.

Lemma first_token_ascii (s tok : str) :
  all_ascii s = true -> first_token s tok -> all_ascii tok = true.
Proof.
  intros Hs (ws & rest & E & _). subst s.
  unfold all_ascii in *. rewrite !forallb_app in Hs.
  apply andb_prop in Hs as [_ Hs]. now apply andb_prop in Hs as [Hs _].
Qed.

Section HelperFacts.

Context `{CaseTables}.

(** X1: the brand name depends on the phrase only through its first token:
    two phrases with the same first token get the same name under the same
    draw. *)
Theorem mock_brand_name_same_token (b1 b2 tok : str) (g : Random) :
  first_token b1 tok ->
  first_token b2 tok ->
  mock_brand_name b1 g = mock_brand_name b2 g.
Proof.
  intros H1 H2.
  destruct (first_token_split b1 tok H1) as (r1 & S1).
  destruct (first_token_split b2 tok H2) as (r2 & S2).
  destruct (mock_brand_name_token b1 tok r1 g S1) as (s1 & N1 & _ & E1).
  destruct (mock_brand_name_token b2 tok r2 g S2) as (s2 & N2 & _ & E2).
  rewrite E1, E2. congruence.
Qed.

(** X2: when the capitalized first token has 30 characters or more, the
    brand name is its first 30 characters: the suffix is cut off entirely
    and the name is the same under every draw. *)
Theorem mock_brand_name_long_token (base tok : str) (g : Random) :
  first_token base tok ->
  30 <= length (capitalize tok) ->
  mock_brand_name base g = (Ok (firstn 30 (capitalize tok)), advance g).
Proof.
  intros Hfirst Hlen.
  destruct (first_token_split base tok Hfirst) as (rest & Hsplit).
  destruct (mock_brand_name_token base tok rest g Hsplit) as (sfx & _ & _ & E).
  rewrite E. unfold slice_to. now rewrite firstn_app_long.
Qed.

(** X4: the logo URL has as many characters as the placeholder address and
    the phrase together (45 more than the phrase), and what follows the
    address has no space character. *)
Theorem mock_logo_url_shape (base : str) :
  length (mock_logo_url base) = 45 + length base
  /\ firstn 45 (mock_logo_url base) = logo_prefix
  /\ no_space (skipn 45 (mock_logo_url base)) = true.
Proof.
  assert (E : mock_logo_url base = logo_prefix ++ spaces_to_plus base).
  { unfold mock_logo_url, spaces_to_plus.
    change (lit " ") with [space]. change (lit "+") with [plus].
    now rewrite replace_single. }
  assert (L : length logo_prefix = 45) by reflexivity.
  rewrite E. split; [|split].
  - rewrite length_app, L. unfold spaces_to_plus. now rewrite length_map.
  - rewrite <- L. apply firstn_exact.
  - rewrite <- L, skipn_exact.
    unfold no_space, spaces_to_plus. rewrite forallb_forall.
    intros c Hc. apply in_map_iff in Hc as (x & <- & _).
    destruct (N.eqb_spec x space) as [->|Hx]; [reflexivity|].
    apply negb_true_iff. now apply N.eqb_neq.
Qed.

(** X5: two phrases get the same logo URL exactly when they are equal once
    [+] is written for every space; so a phrase and the phrase with [+] in
    place of its spaces share their URL. *)
Theorem mock_logo_url_collide (b1 b2 : str) :
  (mock_logo_url b1 = mock_logo_url b2
   <-> spaces_to_plus b1 = spaces_to_plus b2)
  /\ mock_logo_url (spaces_to_plus b1) = mock_logo_url b1.
Proof.
  assert (E : forall b, mock_logo_url b = logo_prefix ++ spaces_to_plus b).
  { intros b. unfold mock_logo_url, spaces_to_plus.
    change (lit " ") with [space]. change (lit "+") with [plus].
    now rewrite replace_single. }
  rewrite !E. split.
  - split; [apply app_inv_head|now intros ->].
  - f_equal. unfold spaces_to_plus. rewrite map_map. apply map_ext.
    intros c. destruct (N.eqb_spec c space); [reflexivity|].
    destruct (N.eqb_spec c space); [contradiction|reflexivity].
Qed.

Lemma contains_prefix (s needle : str) :
  is_prefix needle s = true -> contains s needle = true.
Proof. intros E. destruct s; cbn [contains]; now rewrite E. Qed.

Lemma contains_inside (p s q : str) : contains (p ++ s ++ q) s = true.
Proof.
  induction p as [|a p IH].
  - apply contains_prefix. unfold is_prefix. cbn [app].
    rewrite firstn_exact. apply str_eqb_refl.
  - cbn [app contains]. rewrite IH. apply orb_true_r.
Qed.

(** X6: the description contains the phrase as it was given, between "The "
    and the fixed sentence, and is 85 characters longer than the phrase. *)
Theorem mock_description_contains (base : str) :
  contains (mock_description base) base = true
  /\ firstn 4 (mock_description base) = lit "The "
  /\ length (mock_description base) = 85 + length base.
Proof.
  unfold mock_description. split; [apply contains_inside|]. split.
  - reflexivity.
  - rewrite !length_app.
    change (length (lit "The ")) with 4.
    change (length (lit " designed for people who want quality and sustainability. Handcrafted and tested."))
      with 81.
    lia.
Qed.

(** X7: each of the three ads contains the phrase as it was given, and the
    three ads differ from one another whatever the phrase is. *)
Theorem mock_ads_contain (base : str) :
  Forall (fun ad => contains ad base = true) (mock_ads base)
  /\ NoDup (mock_ads base).
Proof.
  split.
  - unfold mock_ads. repeat constructor; apply contains_inside.
  - unfold mock_ads. repeat constructor; simpl; intros Hin;
      repeat (destruct Hin as [Hin|Hin]; [discriminate Hin|]); exact Hin.
Qed.

(** X9: the route returns a response, after two draws, when the idea is
    absent, empty or has a character that is not whitespace; on every other
    idea (whitespace only) it raises IndexError before any draw. *)
Theorem generate_returns_or_raises (req : GenerateRequest) (g : Random) :
  (servable req = true
   /\ exists r, generate req g = (Ok r, advance (advance g)))
  \/ (servable req = false
      /\ generate req g = (Raise IndexError, g)).
Proof.
  assert (E : servable req = has_token (base_of req)).
  { destruct req as [[[|c s]|]]; reflexivity. }
  rewrite E. destruct (has_token (base_of req)) eqn:Hs.
  - left. split; [reflexivity|].
    destruct (generate_returns req g Hs) as (n & p & _ & _ & Hr).
    eexists. exact Hr.
  - right. split; [reflexivity|]. now apply generate_raises.
Qed.

(** X10: a response takes exactly two draws: the first selects the suffix of
    the brand name, the second the price. *)
Theorem generate_draws (req : GenerateRequest) (g : Random) :
  has_token (base_of req) = true ->
  exists tok suffix p,
    first_token (base_of req) tok
    /\ nth_error parts (draws g (cursor g) mod 8) = Some suffix
    /\ nth_error price_strings (draws g (S (cursor g)) mod 4) = Some p
    /\ generate req g
       = (Ok (response_of (base_of req)
                (firstn 30 (capitalize tok ++ suffix)) p),
          {| draws := draws g; cursor := S (S (cursor g)) |}).
Proof.
  intros Hs.
  destruct (mock_brand_name_first_token (base_of req) g Hs)
    as (tok & sfx & Hfirst & Hnth & _ & Hn).
  destruct (mock_price_run (advance g)) as (p & Hp & Hpn).
  exists tok, sfx, p. repeat split; try assumption.
  unfold generate, bind. now rewrite Hn, Hp.
Qed.

End HelperFacts.

(** ** ASCII phrases *)

Lemma isspace_range (c : codepoint) :
  isspace c = true ->
  (9 <= c <= 13 \/ 28 <= c <= 32 \/ c = 133 \/ c = 160 \/ c = 5760
   \/ 8192 <= c <= 8202 \/ c = 8232 \/ c = 8233 \/ c = 8239 \/ c = 8287
   \/ c = 12288)%N.
Proof.
  unfold isspace.
  rewrite !orb_true_iff, !andb_true_iff, !N.leb_le, !N.eqb_eq. lia.
Qed.

Lemma ascii_title_nonspace (c : codepoint) :
  nonspace c = true -> nonspace (ascii_title c) = true.
Proof.
  unfold ascii_title.
  destruct ((97 <=? c) && (c <=? 122))%N eqn:E; [|trivial].
  intros _. apply andb_prop in E as [E1 E2].
  apply N.leb_le in E1, E2.
  unfold nonspace. destruct (isspace (c - 32)%N) eqn:Hs; [|reflexivity].
  apply isspace_range in Hs. lia.
Qed.

Lemma ascii_lower_nonspace (c : codepoint) :
  nonspace c = true -> nonspace (ascii_lower c) = true.
Proof.
  unfold ascii_lower.
  destruct ((65 <=? c) && (c <=? 90))%N eqn:E; [|trivial].
  intros _. apply andb_prop in E as [E1 E2].
  apply N.leb_le in E1, E2.
  unfold nonspace. destruct (isspace (c + 32)%N) eqn:Hs; [|reflexivity].
  apply isspace_range in Hs. lia.
Qed.

Lemma forallb_firstn {A} (f : A -> bool) (n : nat) (l : list A) :
  forallb f l = true -> forallb f (firstn n l) = true.
Proof.
  rewrite !forallb_forall. intros Hl x Hx. apply Hl.
  eapply In_nth_error in Hx as [i Hi].
  rewrite <- (firstn_skipn n l). apply in_or_app. left.
  eapply nth_error_In. exact Hi.
Qed.

(** X3: for an ASCII phrase, the brand name is the first token with its
    first letter upper-cased and its other letters lower-cased, then the
    suffix, cut to 30 characters; it has min(30, token + suffix) characters
    and no whitespace in it. *)
Theorem mock_brand_name_ascii
    (T : CaseTables) (base : str) (c : codepoint) (rest : str) (g : Random) :
  ascii_agree T ->
  all_ascii base = true ->
  first_token base (c :: rest) ->
  exists suffix,
    nth_error parts (next_draw g mod 8) = Some suffix
    /\ mock_brand_name base g
       = (Ok (firstn 30 (ascii_title c :: map ascii_lower rest ++ suffix)),
          advance g)
    /\ length (firstn 30 (ascii_title c :: map ascii_lower rest ++ suffix))
       = Nat.min 30 (S (length rest) + length suffix)
    /\ forallb nonspace
         (firstn 30 (ascii_title c :: map ascii_lower rest ++ suffix))
       = true.
Proof.
  intros HT Hbase Hfirst.
  destruct (first_token_split base (c :: rest) Hfirst) as (others & Hsplit).
  destruct (mock_brand_name_token base (c :: rest) others g Hsplit)
    as (sfx & Hnth & Hin & E).
  exists sfx. split; [exact Hnth|]. split.
  - rewrite E. unfold slice_to.
    rewrite (capitalize_ascii T c rest HT
               (first_token_ascii base (c :: rest) Hbase Hfirst)).
    reflexivity.
  - split.
    + rewrite length_firstn. cbn [length]. now rewrite length_app, length_map.
    + apply forallb_firstn.
      destruct Hfirst as (ws & tl & _ & _ & _ & Htok & _).
      cbn [forallb] in *. apply andb_prop in Htok as [Hc Hrest].
      rewrite ascii_title_nonspace by assumption. cbn [andb].
      rewrite forallb_app. apply andb_true_intro. split.
      * rewrite forallb_forall in *. intros x Hx.
        apply in_map_iff in Hx as (y & <- & Hy).
        apply ascii_lower_nonspace. now apply Hrest.
      * assert (P : forallb (forallb nonspace) parts = true)
          by (vm_compute; reflexivity).
        rewrite forallb_forall in P. now apply P.
Qed.

(** X8: for an ASCII phrase that is not empty, the title is the phrase with
    its first letter upper-cased and every later letter lower-cased,
    followed by " — Premium Edition": 18 characters more than the phrase. *)
Theorem mock_title_ascii (T : CaseTables) (c : codepoint) (rest : str) :
  ascii_agree T ->
  all_ascii (c :: rest) = true ->
  mock_title (c :: rest)
  = ascii_title c :: map ascii_lower rest
    ++ lit " " ++ [em_dash] ++ lit " Premium Edition"
  /\ length (mock_title (c :: rest)) = length (c :: rest) + 18.
Proof.
  intros HT Hs. unfold mock_title.
  rewrite (capitalize_ascii T c rest HT Hs). split; [reflexivity|].
  rewrite length_app. cbn [length]. rewrite length_map.
  change (length (lit " " ++ [em_dash] ++ lit " Premium Edition")) with 18.
  lia.
Qed.

(** Two phrases whose first token is "eco". *)
Lemma first_token_eco :
  first_token (lit "eco phone") (lit "eco")
  /\ first_token (lit " eco case") (lit "eco").
Proof.
  split.
  - exists [], (lit " phone"). repeat split; discriminate || reflexivity.
  - exists (lit " "), (lit " case"). repeat split; discriminate || reflexivity.
Qed.

(** X1 on "eco phone" and " eco case". *)
Lemma mock_brand_name_same_token_witness :
  first_token (lit "eco phone") (lit "eco")
  /\ first_token (lit " eco case") (lit "eco")
  /\ mock_brand_name (H := AsciiTables) (lit "eco phone") (const_draws 2)
     = mock_brand_name (H := AsciiTables) (lit " eco case") (const_draws 2).
Proof.
  split; [apply first_token_eco|]. split; [apply first_token_eco|].
  apply (mock_brand_name_same_token (H := AsciiTables)
           (lit "eco phone") (lit " eco case") (lit "eco") (const_draws 2));
    apply first_token_eco.
Defined.

Lemma first_token_long :
  first_token (lit "supercalifragilisticexpialidocious mug")
    (lit "supercalifragilisticexpialidocious").
Proof.
  exists [], (lit " mug"). repeat split; discriminate || reflexivity.
Qed.

(** X2 on a phrase whose first token has 34 characters. *)
Lemma mock_brand_name_long_token_witness :
  30 <= length (capitalize (H := AsciiTables)
                  (lit "supercalifragilisticexpialidocious"))
  /\ mock_brand_name (H := AsciiTables)
       (lit "supercalifragilisticexpialidocious mug") (const_draws 5)
     = (Ok (lit "Supercalifragilisticexpialidoc"), advance (const_draws 5)).
Proof.
  assert (L : 30 <= length (capitalize (H := AsciiTables)
                              (lit "supercalifragilisticexpialidocious")))
    by (vm_compute; lia).
  split; [exact L|].
  rewrite (mock_brand_name_long_token (H := AsciiTables)
             (lit "supercalifragilisticexpialidocious mug")
             (lit "supercalifragilisticexpialidocious") (const_draws 5)
             first_token_long L).
  reflexivity.
Defined.

Lemma first_token_iphone :
  first_token (lit "iPhone case") (105%N :: lit "Phone").
Proof.
  exists [], (lit " case"). repeat split; discriminate || reflexivity.
Qed.

(** X3 on "iPhone case": the name begins "Iphone". *)
Lemma mock_brand_name_ascii_witness :
  all_ascii (lit "iPhone case") = true
  /\ exists suffix,
       nth_error parts (next_draw (const_draws 0) mod 8) = Some suffix
       /\ mock_brand_name (H := AsciiTables) (lit "iPhone case") (const_draws 0)
          = (Ok (firstn 30 (ascii_title 105%N :: map ascii_lower (lit "Phone")
                              ++ suffix)),
             advance (const_draws 0))
       /\ length (firstn 30 (ascii_title 105%N :: map ascii_lower (lit "Phone")
                               ++ suffix))
          = Nat.min 30 (S (length (lit "Phone")) + length suffix)
       /\ forallb nonspace
            (firstn 30 (ascii_title 105%N :: map ascii_lower (lit "Phone")
                          ++ suffix))
          = true.
Proof.
  split; [reflexivity|].
  apply (mock_brand_name_ascii AsciiTables (lit "iPhone case") 105%N
           (lit "Phone") (const_draws 0) ascii_tables_agree eq_refl
           first_token_iphone).
Defined.

(** X8 on "iPhone case": the title is "Iphone case — Premium Edition". *)
Lemma mock_title_ascii_witness :
  all_ascii (lit "iPhone case") = true
  /\ mock_title (H := AsciiTables) (lit "iPhone case")
     = lit "Iphone case " ++ [em_dash] ++ lit " Premium Edition".
Proof.
  split; [reflexivity|].
  etransitivity.
  - exact (proj1 (mock_title_ascii AsciiTables 105%N (lit "Phone case")
                    ascii_tables_agree eq_refl)).
  - reflexivity.
Defined.

(** X10 on "eco-friendly phone case" with draws 3 and then 2: the suffix is
    "Craft" and the price $29.99. *)
Lemma generate_draws_witness :
  has_token (base_of {| idea := Some (lit "eco-friendly phone case") |}) = true
  /\ exists tok suffix p,
       first_token (lit "eco-friendly phone case") tok
       /\ nth_error parts (3 mod 8) = Some suffix
       /\ nth_error price_strings (2 mod 4) = Some p
       /\ generate (H := AsciiTables)
            {| idea := Some (lit "eco-friendly phone case") |} (two_draws 3 2)
          = (Ok (response_of (H := AsciiTables) (lit "eco-friendly phone case")
                   (firstn 30 (capitalize (H := AsciiTables) tok ++ suffix)) p),
             {| draws := draws (two_draws 3 2); cursor := 2 |}).
Proof.
  split; [reflexivity|].
  apply (generate_draws (H := AsciiTables)
           {| idea := Some (lit "eco-friendly phone case") |} (two_draws 3 2)).
  reflexivity.
Defined.

(** ** More on the proxy route *)

Module ProxyMore.

Import Proxy.

Local Open Scope string_scope.


(** X12: the route reaches the network only through the one request it
    sends, a POST with the JSON content type to the backend URL: two
    surroundings with the same environment variable and the same serializer
    whose networks answer that request alike are served alike, however they
    differ elsewhere. *)
Theorem handler_one_request (rt1 rt2 : Runtime) (req : Request) :
  env_BACKEND_URL rt1 = env_BACKEND_URL rt2 ->
  JSON_stringify rt1 (body req) = JSON_stringify rt2 (body req) ->
  (forall text,
      JSON_stringify rt1 (body req) = Normal text ->
      fetch rt1 (backendUrl rt1) (backend_init text)
      = fetch rt2 (backendUrl rt1) (backend_init text)) ->
  handler rt1 req = handler rt2 req.
Proof.
  intros Henv Hs Hf. unfold handler.
  destruct (negb (String.eqb (method req) "POST")); [reflexivity|].
  assert (E : relay rt1 req = relay rt2 req).
  { unfold relay, backendUrl. rewrite <- Henv, <- Hs.
    destruct (JSON_stringify rt1 (body req)) as [text|e] eqn:Ht;
      [|reflexivity].
    cbn [and_then]. unfold backendUrl in Hf. now rewrite (Hf text eq_refl). }
  now rewrite E.
Qed.

(** X12 on two networks that differ at every URL but the default backend
    URL, with the environment variable set to the empty string. *)
Lemma handler_one_request_witness :
  env_BACKEND_URL (answers_json 200 JNull) = Some ""
  /\ handler (answers_json 200 JNull) (post (Some JNull))
     = handler
         {| env_BACKEND_URL := Some "";
            JSON_stringify := fun _ => Normal (Some "{}");
            fetch := fun url _ =>
              if String.eqb url "http://localhost:8000/generate"
              then Normal (mkReply 200 (Normal JNull))
              else Throw (mkThrown "TypeError" "fetch failed") |}
         (post (Some JNull)).
Proof.
  split; [reflexivity|].
  apply (handler_one_request (answers_json 200 JNull)); try reflexivity.
Defined.

End ProxyMore.

(** ** The form *)

Module BuilderFacts.

Import Proxy Builder.

Local Open Scope string_scope.
Local Open Scope list_scope.

Lemma step_keeps (rt : Runtime) (ev : event) (p : Page) :
  settled_or_waiting p -> settled_or_waiting (step rt ev p).
Proof.
  unfold settled_or_waiting. intros (Hw & Hs & Hl). destruct ev; cbn [step].
  - cbn [view loading result awaited alerts console].
    exact (conj Hw (conj Hs Hl)).
  - cbn [view loading result awaited alerts console].
    split; [|exact (conj Hs Hl)]. intros E. split; [reflexivity|]. now apply Hw.
  - destruct (loading (view p)) eqn:E; [rewrite E; exact (conj Hw (conj Hs Hl))|].
    unfold handleGenerate_begin.
    cbn [view loading result awaited alerts console].
    rewrite (Hs eq_refl). split; [|split; [discriminate|exact Hl]].
    intros _. split; [reflexivity|]. now exists (idea (view p)).
  - destruct (awaited p) as [|sent others] eqn:E;
      [rewrite E; exact (conj Hw (conj Hs Hl))|].
    assert (others = []) as ->.
    { destruct (loading (view p)) eqn:L.
      - destruct (Hw eq_refl) as (_ & s & Hs'). congruence.
      - specialize (Hs eq_refl). congruence. }
    unfold handleGenerate_resume.
    destruct (exchange rt sent);
      cbn [view loading result awaited alerts console];
      (split; [discriminate|]); (split; [reflexivity|]).
    + exact Hl.
    + rewrite !length_app, Hl. reflexivity.
Qed.

Lemma run_keeps (rt : Runtime) (evs : list event) (p : Page) :
  settled_or_waiting p -> settled_or_waiting (run rt evs p).
Proof.
  revert p. induction evs as [|ev evs IH]; intros p Hp; [exact Hp|].
  cbn [run fold_left]. apply IH. now apply step_keeps.
Qed.

Lemma start_settled : settled_or_waiting start.
Proof. repeat split; cbn; auto; discriminate. Qed.

(** X13: after any sequence of typing, resets, submits and answers from the
    start, at most one request is awaited; one is awaited exactly while
    [loading] is set; while it is, no result is held; and every alert shown
    has its error in the console. *)
Theorem run_one_request (rt : Runtime) (evs : list event) :
  length (awaited (run rt evs start)) <= 1
  /\ (loading (view (run rt evs start)) = true
      <-> awaited (run rt evs start) <> [])
  /\ (loading (view (run rt evs start)) = true ->
      result (view (run rt evs start)) = JNull)
  /\ length (alerts (run rt evs start)) = length (console (run rt evs start)).
Proof.
  destruct (run_keeps rt evs start start_settled) as (Hw & Hs & Hl).
  destruct (loading (view (run rt evs start))) eqn:L.
  - destruct (Hw eq_refl) as (Hr & sent & Ha). rewrite Ha.
    repeat split; auto; try discriminate.
  - rewrite (Hs eq_refl). repeat split; auto; try discriminate.
Qed.

Lemma run_app (rt : Runtime) (evs1 evs2 : list event) (p : Page) :
  run rt (evs1 ++ evs2) p = run rt evs2 (run rt evs1 p).
Proof. unfold run. apply fold_left_app. Qed.

Lemma run_edits (rt : Runtime) (evs : list event) :
  forall p,
    forallb is_edit evs = true ->
    result (view p) = JNull ->
    run rt evs p
    = {| view := {| idea := edited evs (idea (view p));
                    loading := loading (view p);
                    result := JNull |};
         awaited := awaited p;
         alerts := alerts p;
         console := console p |}.
Proof.
  induction evs as [|ev evs IH]; intros p Hevs Hr.
  - destruct p as [[i l r] a al co]. cbn in *. now subst r.
  - cbn [forallb] in Hevs. apply andb_prop in Hevs as [Hev Hevs].
    cbn [run fold_left]. fold (run rt evs (step rt ev p)).
    destruct ev; try discriminate; cbn [step]; rewrite IH; auto.
Qed.

Lemma run_submit_edits_settle (rt : Runtime) (p : Page) (evs : list event) :
  loading (view p) = false ->
  awaited p = [] ->
  forallb is_edit evs = true ->
  run rt (Submit :: evs ++ [Settle]) p
  = match exchange rt (idea (view p)) with
    | Normal data =>
        {| view := {| idea := edited evs (idea (view p)); loading := false;
                      result := data |};
           awaited := []; alerts := alerts p; console := console p |}
    | Throw e =>
        {| view := {| idea := edited evs (idea (view p)); loading := false;
                      result := JNull |};
           awaited := [];
           alerts := alerts p ++ [alert_message];
           console := console p ++ [e] |}
    end.
Proof.
  intros Hl Ha Hevs.
  change (Submit :: evs ++ [Settle]) with ([Submit] ++ evs ++ [Settle]).
  rewrite !run_app. cbn [run fold_left step]. rewrite Hl.
  fold (run rt evs (handleGenerate_begin p)).
  rewrite run_edits by (auto; reflexivity).
  unfold handleGenerate_begin. cbn [view idea loading result awaited alerts console].
  rewrite Ha. cbn [app]. unfold handleGenerate_resume.
  destruct (exchange rt (idea (view p))); reflexivity.
Qed.

(** X14: the answer shown is the one to the idea as it was at the submit.
    Whatever is typed or reset between the submit and the answer, the answer
    still arrives: the result is the backend's value for the submitted idea
    beside the edited input, or stays empty with one alert and one logged
    error; in both cases loading ends. *)
Theorem answer_for_submitted_idea
    (rt : Runtime) (p : Page) (evs : list event) :
  loading (view p) = false ->
  awaited p = [] ->
  forallb is_edit evs = true ->
  run rt (Submit :: evs ++ [Settle]) p
  = match exchange rt (idea (view p)) with
    | Normal data =>
        {| view := {| idea := edited evs (idea (view p)); loading := false;
                      result := data |};
           awaited := []; alerts := alerts p; console := console p |}
    | Throw e =>
        {| view := {| idea := edited evs (idea (view p)); loading := false;
                      result := JNull |};
           awaited := [];
           alerts := alerts p ++ [alert_message];
           console := console p ++ [e] |}
    end.
Proof. apply run_submit_edits_settle. Qed.

(** X14 on a submit of "mug" followed by a reset before the answer: the
    result for "mug" is shown beside an empty input. *)
Lemma answer_for_submitted_idea_witness :
  loading (view (step (browser (Normal (mkReply 200 (Normal (JBool true)))))
                   (Change "mug") start)) = false
  /\ forallb is_edit [Reset] = true
  /\ run (browser (Normal (mkReply 200 (Normal (JBool true)))))
       (Submit :: [Reset] ++ [Settle])
       (step (browser (Normal (mkReply 200 (Normal (JBool true)))))
          (Change "mug") start)
     = {| view := {| idea := ""; loading := false; result := JBool true |};
          awaited := []; alerts := []; console := [] |}.
Proof.
  split; [reflexivity|]. split; [reflexivity|].
  rewrite (answer_for_submitted_idea
             (browser (Normal (mkReply 200 (Normal (JBool true)))))
             (step (browser (Normal (mkReply 200 (Normal (JBool true)))))
                (Change "mug") start)
             [Reset] eq_refl eq_refl eq_refl).
  reflexivity.
Defined.

(** X15: a reply that parses as JSON becomes the result whatever its status
    is, and no alert is shown: the form does not look at the status. *)
Theorem handleGenerate_ignores_status
    (rt : Runtime) (p : Page) (text : option string)
    (st : nat) (data : json) :
  loading (view p) = false ->
  awaited p = [] ->
  JSON_stringify rt (Some (JObj [("idea", JStr (idea (view p)))]))
  = Normal text ->
  fetch rt "/api/generate" (generate_init text)
  = Normal {| reply_status := st; reply_json := Normal data |} ->
  handleGenerate rt p
  = {| view := {| idea := idea (view p); loading := false; result := data |};
       awaited := []; alerts := alerts p; console := console p |}.
Proof.
  intros Hl Ha Hs Hf.
  change (handleGenerate rt p) with (run rt (Submit :: [] ++ [Settle]) p).
  rewrite run_submit_edits_settle by (auto; reflexivity).
  unfold exchange. rewrite Hs. cbn [and_then]. rewrite Hf. reflexivity.
Qed.

(** X15 on a reply with status 500 and a JSON body. *)
Lemma handleGenerate_ignores_status_witness :
  fetch (browser (Normal (mkReply 500 (Normal (JStr "down")))))
    "/api/generate" (generate_init (Some "{}"))
  = Normal (mkReply 500 (Normal (JStr "down")))
  /\ handleGenerate (browser (Normal (mkReply 500 (Normal (JStr "down")))))
       start
     = {| view := {| idea := ""; loading := false; result := JStr "down" |};
          awaited := []; alerts := []; console := [] |}.
Proof.
  split; [reflexivity|].
  apply (handleGenerate_ignores_status
           (browser (Normal (mkReply 500 (Normal (JStr "down")))))
           start (Some "{}") 500 (JStr "down"));
    reflexivity.
Defined.

(** X16: when the proxy route, asked by the form, fails to reach its
    backend, the form takes the route's error body as its result and shows
    no alert; rendering that result then throws a TypeError at
    [result.brand.name]. *)
Theorem proxy_failure_breaks_render
    (ui backend : Runtime) (p : Page) (req : Request)
    (text : option string) (e : thrown) :
  loading (view p) = false ->
  awaited p = [] ->
  JSON_stringify ui (Some (JObj [("idea", JStr (idea (view p)))]))
  = Normal text ->
  fetch ui "/api/generate" (generate_init text)
  = Normal (served_reply (handler backend req)) ->
  method req = "POST" ->
  relay backend req = Throw e ->
  result (view (handleGenerate ui p))
  = JObj [("error", JStr "backend proxy failed")]
  /\ alerts (handleGenerate ui p) = alerts p
  /\ render (view (handleGenerate ui p)) = Throw (type_error "name").
Proof.
  intros Hl Ha Hs Hf Hm He.
  assert (E : handleGenerate ui p
              = {| view := {| idea := idea (view p); loading := false;
                              result := JObj [("error", JStr "backend proxy failed")] |};
                   awaited := []; alerts := alerts p; console := console p |}).
  { change (handleGenerate ui p) with (run ui (Submit :: [] ++ [Settle]) p).
    rewrite run_submit_edits_settle by (auto; reflexivity).
    unfold exchange. rewrite Hs. cbn [and_then]. rewrite Hf.
    unfold handler. rewrite Hm, He. reflexivity. }
  rewrite E. repeat split.
Qed.

(** X16 on a form whose request is served by the route in front of an
    unreachable backend. *)
Lemma proxy_failure_breaks_render_witness :
  relay unreachable (post (Some (JObj [("idea", JStr "")])))
  = Throw (mkThrown "TypeError" "fetch failed")
  /\ result (view (handleGenerate
                     (browser (Normal (served_reply
                        (handler unreachable
                           (post (Some (JObj [("idea", JStr "")])))))))
                     start))
     = JObj [("error", JStr "backend proxy failed")]
  /\ alerts (handleGenerate
               (browser (Normal (served_reply
                  (handler unreachable
                     (post (Some (JObj [("idea", JStr "")])))))))
               start) = []
  /\ render (view (handleGenerate
                     (browser (Normal (served_reply
                        (handler unreachable
                           (post (Some (JObj [("idea", JStr "")])))))))
                     start))
     = Throw (type_error "name").
Proof.
  split; [reflexivity|].
  apply (proxy_failure_breaks_render
           (browser (Normal (served_reply
              (handler unreachable (post (Some (JObj [("idea", JStr "")])))))))
           unreachable start (post (Some (JObj [("idea", JStr "")])))
           (Some "{}") (mkThrown "TypeError" "fetch failed"));
    reflexivity.
Defined.


(** X18: while a request is awaited, on any page reached from the start,
    the component renders without throwing: the input holds the idea, the
    submit button is disabled and reads "Generating...", and no preview is
    shown. *)
Theorem render_while_loading (rt : Runtime) (evs : list event) :
  loading (view (run rt evs start)) = true ->
  render (view (run rt evs start))
  = Normal {| input_value := idea (view (run rt evs start));
              submit_label := "Generating...";
              submit_disabled := true;
              shown := None |}.
Proof.
  intros L.
  destruct (run_keeps rt evs start start_settled) as (Hw & _).
  destruct (Hw L) as (Hr & _).
  unfold render. rewrite Hr, L. reflexivity.
Qed.

(** X18 after typing "mug" and submitting. *)
Lemma render_while_loading_witness :
  loading (view (run unreachable [Change "mug"; Submit] start)) = true
  /\ render (view (run unreachable [Change "mug"; Submit] start))
     = Normal {| input_value := "mug";
                 submit_label := "Generating...";
                 submit_disabled := true;
                 shown := None |}.
Proof.
  split; [reflexivity|].
  apply (render_while_loading unreachable [Change "mug"; Submit]).
  reflexivity.
Defined.

End BuilderFacts.
